(** * CausalLM.generate (wenet/LLM/causal_model.py): a shallow embedding

    The generation procedure of [CausalLM] is modelled as a function in a
    small writer/error monad: the writer part records the observable events
    (KV-cache allocation, buffer allocation, decoder invocations, writes into
    the token buffer), the error part records the Python exception that
    aborts the call.  Tensors that the claims look into (the token buffer,
    the prompt mask, the causal mask) are lists of rows; the KV caches are
    kept as their shapes, since they are zero tensors that only the decoder
    reads.

    The decoder, the embedding table and the sampler are collaborators
    outside this file: their combined effect at step [i] is a sampled token
    per example, [next_token i r]. *)

From Stdlib Require Import ZArith List Lia Bool.
Import ListNotations.

(** ** Exceptions and events *)

Inductive PyError : Type :=
| AttributeError   (* reading an attribute that was never assigned *)
| AssertionError   (* a failing [assert] *)
| ValueError       (* [min()] / [max()] of an empty sequence *)
| ShapeError       (* [torch.cat] of tensors whose sizes do not match *)
| IndexError.      (* [index_select] / [index_copy_] out of range *)

Inductive event : Type :=
| EvAllocKV (layer : nat)                 (* zeros for one layer's (k, v) *)
| EvAllocBuf                              (* the two [torch.full] buffers *)
| EvDecoder (step : nat) (input : list (list Z))
    (* one call of [self.decoder] on the embedding of [input] *)
| EvWrite (col : nat) (toks : list Z).    (* [token_ids_tensor.index_copy_] *)

Definition M (A : Type) : Type := (list event * (PyError + A))%type.

Definition ret {A} (a : A) : M A := ([], inr a).
Definition raise {A} (e : PyError) : M A := ([], inl e).
Definition tell (ev : event) : M unit := ([ev], inr tt).
Definition bind {A B} (m : M A) (f : A -> M B) : M B :=
  match m with
  | (t, inl e) => (t, inl e)
  | (t, inr a) => let (t', r) := f a in (t ++ t', r)
  end.

Notation "'do' x <- m ;; k" := (bind m (fun x => k))
  (at level 61, x name, m at next level, right associativity).

Fixpoint mapM {A B} (f : A -> M B) (l : list A) : M (list B) :=
  match l with
  | [] => ret []
  | x :: r => do y <- f x ;; do ys <- mapM f r ;; ret (y :: ys)
  end.

(** ** The model object *)

Definition IGNORE_ID : Z := -1.

Record DecoderOnly := mkDecoder {
  hidden_size : nat;
  n_kv_head : nat;
  head_dim : nat;
  pos_enc_max_len : nat            (* [self.decoder.pos_enc.max_len] *)
}.

(** The configuration object [generate] reads as [self.config]. *)
Record LMConfig := mkConfig { num_hidden_layers : nat }.

Record SpecialTokens := mkSpecial { tok_sos : Z; tok_eos : Z }.

(** The attributes of a [CausalLM] instance; [config] is [None] while the
    attribute is absent from the instance. *)
Record CausalLM := mkCausalLM {
  vocab_size : nat;
  decoder : DecoderOnly;
  sos : Z;
  eos : Z;
  tie_word_embedding : bool;
  ignore_id : Z;
  config : option LMConfig
}.

(** [CausalLM.__init__]: the attributes it assigns (the embedding, output
    layer and loss are parameters of the network and left out). *)
Definition init (vocab_size : nat) (decoder : DecoderOnly)
    (special_tokens : SpecialTokens) (tie_word_embedding : bool)
    (ignore_id : Z) : CausalLM :=
  {| vocab_size := vocab_size;
     decoder := decoder;
     sos := tok_sos special_tokens;
     eos := tok_eos special_tokens;
     tie_word_embedding := tie_word_embedding;
     ignore_id := ignore_id;
     config := None |}.

(** [self.config]: an attribute lookup that fails when it was never set. *)
Definition get_config (self : CausalLM) : M LMConfig :=
  match config self with
  | Some c => ret c
  | None => raise AttributeError
  end.

(** ** Python builtins *)

Definition py_min (l : list nat) : M nat :=
  match l with
  | [] => raise ValueError
  | x :: r => ret (fold_left Nat.min r x)
  end.

Definition py_max (l : list nat) : M nat :=
  match l with
  | [] => raise ValueError
  | x :: r => ret (fold_left Nat.max r x)
  end.

(** [l[a:b]] for [0 <= a]. *)
Definition py_slice (l : list Z) (a b : nat) : list Z := firstn (b - a) (skipn a l).

(** [l.index(x)]: the first position of [x]. *)
Fixpoint py_index (x : Z) (l : list Z) : option nat :=
  match l with
  | [] => None
  | y :: r => if Z.eqb y x then Some 0 else option_map S (py_index x r)
  end.

(** [x in l]. *)
Definition py_in (x : Z) (l : list Z) : bool := existsb (Z.eqb x) l.

(** ** Tensors *)

(** A tensor the code only allocates and hands to the decoder. *)
Record Tensor := mkTensor { shape : list nat; fill : Z }.

Definition zeros (size : list nat) : Tensor := {| shape := size; fill := 0 |}.

(** The Python value bound to [kv_caches]: a list, or a (k, v) tuple. *)
Inductive KVCaches : Type :=
| KVList (l : list (Tensor * Tensor))
| KVTuple (kv : Tensor * Tensor).

(** [t[i, :len(q)] = torch.tensor(q)] on one row. *)
Definition set_prefix (row q : list Z) : list Z := q ++ skipn (length q) row.

(** [torch.cat([a, b], dim=-1)] on 2-d tensors. *)
Definition cat_last (a b : list (list Z)) : M (list (list Z)) :=
  if Nat.eqb (length a) (length b)
  then ret (map (fun xy => fst xy ++ snd xy) (combine a b))
  else raise ShapeError.

Fixpoint list_set {A} (l : list A) (j : nat) (v : A) : list A :=
  match l, j with
  | [], _ => []
  | _ :: r, O => v :: r
  | x :: r, S j' => x :: list_set r j' v
  end.

Definition nth_or_index_error {A} (row : list A) (j : nat) : M A :=
  match nth_error row j with
  | Some x => ret x
  | None => raise IndexError
  end.

(** [t.index_select(0, idx)] (rows) and [t.index_select(1, [j]).squeeze(1)]
    (one column). *)
Definition index_select_rows {A} (rows : list A) (idx : list nat) : M (list A) :=
  mapM (nth_or_index_error rows) idx.

Definition index_col {A} (t : list (list A)) (j : nat) : M (list A) :=
  mapM (fun row => nth_or_index_error row j) t.

(** [t.index_copy_(1, [j], vals)]. *)
Definition index_copy_col (t : list (list Z)) (j : nat) (vals : list Z)
  : M (list (list Z)) :=
  mapM (fun rv => if Nat.ltb j (length (fst rv))
                  then ret (list_set (fst rv) j (snd rv))
                  else raise IndexError) (combine t vals).

(** [torch.triu(torch.ones(n, n), diagonal=1)] (the two leading unit
    dimensions dropped). *)
Definition triu_mask (n : nat) : list (list bool) :=
  map (fun i => map (fun j => Nat.ltb i j) (seq 0 n)) (seq 0 n).

(** ** [generate], lines 101-108: the KV caches *)

Fixpoint kv_loop (layers : list nat) (size : list nat) (kv_caches : KVCaches)
  : M KVCaches :=
  match layers with
  | [] => ret kv_caches
  | l :: rest =>
      do _ <- tell (EvAllocKV l) ;;
      let k_cache := zeros size in
      let v_cache := zeros size in
      kv_loop rest size (KVTuple (k_cache, v_cache))
  end.

Definition build_kv_caches (self : CausalLM) (batch_size min_prompt_len : nat)
  : M KVCaches :=
  do cfg <- get_config self ;;
  let size := [batch_size; n_kv_head (decoder self); min_prompt_len;
               head_dim (decoder self)] in
  kv_loop (seq 0 (num_hidden_layers cfg)) size (KVList []).

(** ** [generate], lines 110-128: the token buffers *)

Definition prepare_inputs (sos : Z) (prompts : list (list Z))
    (batch_size min_prompt_len max_prompt_len : nat)
  : M (list (list Z) * list (list Z)) :=
  do _ <- tell EvAllocBuf ;;
  (* right padding: row i of each buffer gets p and p[:min_prompt_len] *)
  let token_ids_tensor :=
    map (fun p => set_prefix (repeat IGNORE_ID max_prompt_len) p) prompts in
  let input_token_ids_tensor :=
    map (fun p => set_prefix (repeat IGNORE_ID min_prompt_len)
                             (firstn min_prompt_len p)) prompts in
  (* add sos: torch.tensor([sos] * batch_size).unsqueeze(0) *)
  let sos_t := [repeat sos batch_size] in
  do token_ids_tensor <- cat_last sos_t token_ids_tensor ;;
  do input_token_ids_tensor <- cat_last sos_t token_ids_tensor ;;
  ret (token_ids_tensor, input_token_ids_tensor).

(** ** [generate], lines 180-188: the output extractor *)

Definition trim_eos (eos : Z) (trimmed_output : list Z) : list Z :=
  if py_in eos trimmed_output
  then match py_index eos trimmed_output with
       | Some eos_index => firstn eos_index trimmed_output
       | None => trimmed_output
       end
  else trimmed_output.

(** Row [i] of the token buffer is paired with [prompts_tokens[i]]; the
    buffer has one row per prompt. *)
Definition extract_results (eos : Z) (output_len : nat)
    (prompts_tokens token_ids : list (list Z)) : list (list Z) :=
  map (fun pt => let p := fst pt in
                 trim_eos eos (py_slice (snd pt) (length p) (length p + output_len)))
      (combine prompts_tokens token_ids).

Section Generate.

(** The decoder call, the selection of its output position and the sampler
    of step [i], for example [r]. *)
Variable next_token : nat -> nat -> Z.

(** ** [generate], lines 150-178: the decode loop *)
Fixpoint decode_loop (fuel step : nat) (mask_tensor prompt_mask : list (list bool))
    (input_token_ids_tensor token_ids_tensor : list (list Z)) (output_index : nat)
  : M (list (list Z)) :=
  match fuel with
  | O => ret token_ids_tensor
  | S fuel' =>
      do _ <- tell (EvDecoder step input_token_ids_tensor) ;;
      let next_token_ids :=
        map (next_token step) (seq 0 (length token_ids_tensor)) in
      do curr_prompt_mask <- index_col prompt_mask output_index ;;
      do curr_token_ids <- index_col token_ids_tensor output_index ;;
      let output_token_ids :=
        map (fun mcn : bool * (Z * Z) => if fst mcn then fst (snd mcn) else snd (snd mcn))
            (combine curr_prompt_mask (combine curr_token_ids next_token_ids)) in
      do token_ids_tensor <- index_copy_col token_ids_tensor output_index output_token_ids ;;
      do _ <- tell (EvWrite output_index output_token_ids) ;;
      do _ <- index_select_rows mask_tensor [output_index] ;;
      let input_token_ids_tensor := map (fun t => [t]) output_token_ids in
      decode_loop fuel' (S step) mask_tensor prompt_mask input_token_ids_tensor
                  token_ids_tensor (S output_index)
  end.

(** [generate] up to line 178: the final token buffer. *)
Definition generate_buffer (self : CausalLM) (prompts_tokens : list (list Z))
    (output_len : nat) : M (list (list Z)) :=
  let batch_size := length prompts_tokens in
  do min_prompt_len <- py_min (map (@length Z) prompts_tokens) ;;
  do max_prompt_len <- py_max (map (@length Z) prompts_tokens) ;;
  let max_seq_len := max_prompt_len + output_len in
  do _ <- (if Nat.leb max_seq_len (pos_enc_max_len (decoder self))
        then ret tt else raise AssertionError) ;;
  do kv_caches <- build_kv_caches self batch_size min_prompt_len ;;
  do bufs <- prepare_inputs (sos self) prompts_tokens batch_size
                         min_prompt_len max_prompt_len ;;
  let token_ids_tensor := fst bufs in
  let prompt_mask_tensor :=
    map (map (fun t => negb (Z.eqb t IGNORE_ID))) token_ids_tensor in
  let mask_tensor := triu_mask max_prompt_len in
  do _ <- index_select_rows mask_tensor (seq 0 min_prompt_len) ;;
  decode_loop (max_seq_len - min_prompt_len) 0 mask_tensor prompt_mask_tensor
              (snd bufs) token_ids_tensor min_prompt_len.

(** [CausalLM.generate]. *)
Definition generate (self : CausalLM) (prompts_tokens : list (list Z))
    (output_len : nat) : M (list (list Z)) :=
  do token_ids <- generate_buffer self prompts_tokens output_len ;;
  ret (extract_results (eos self) output_len prompts_tokens token_ids).

End Generate.

(** ** Sample instances *)

Definition dec0 : DecoderOnly := mkDecoder 16 2 8 64.
Definition lm0 : CausalLM := init 32 dec0 (mkSpecial 1 2) false IGNORE_ID.
Definition lm_cfg (layers : nat) : CausalLM :=
  {| vocab_size := 32; decoder := dec0; sos := 1; eos := 2;
     tie_word_embedding := false; ignore_id := IGNORE_ID;
     config := Some (mkConfig layers) |}.
Definition sampler9 : nat -> nat -> Z := fun _ _ => 9%Z.



(** Number of decoder invocations in a trace. *)
Definition decoder_calls (t : list event) : nat :=
  length (filter (fun ev => match ev with EvDecoder _ _ => true | _ => false end) t).

(** * Properties *)

(** [m] ends in the exception [e]. *)
Definition raises {A} (e : PyError) (m : M A) : Prop := snd m = inl e.

(** Entry [(r, j)] of a 2-d tensor. *)
Definition cell {A} (t : list (list A)) (r j : nat) : option A :=
  match nth_error t r with
  | Some row => nth_error row j
  | None => None
  end.

(** Entries under a true prompt mask agree with the initial buffer. *)
Definition forced_agree (pm : list (list bool)) (buf buf0 : list (list Z)) : Prop :=
  forall r k, cell pm r k = Some true -> cell buf r k = cell buf0 r k.

Lemma bind_raises {A B} (e : PyError) (m : M A) (f : A -> M B) :
  raises e (bind m f) -> raises e m \/ exists a, snd m = inr a /\ raises e (f a).
Proof.
  unfold raises; destruct m as [t [e' | a]]; simpl; intros H.
  - left; congruence.
  - right; exists a; split; [reflexivity |].
    destruct (f a) as [t' r]; exact H.
Qed.

Lemma bind_ok {A B} (m : M A) (f : A -> M B) t a :
  m = (t, inr a) -> bind m f = (t ++ fst (f a), snd (f a)).
Proof. intros ->; simpl; destruct (f a); reflexivity. Qed.

Lemma bind_err {A B} (m : M A) (f : A -> M B) t e :
  m = (t, inl e) -> bind m f = (t, inl e).
Proof. intros ->; reflexivity. Qed.

Lemma bind_trace {A B} (m : M A) (f : A -> M B) :
  fst (bind m f) = fst m ++ match snd m with inl _ => [] | inr a => fst (f a) end.
Proof.
  destruct m as [t [e | a]]; simpl.
  - rewrite app_nil_r; reflexivity.
  - destruct (f a); reflexivity.
Qed.

#[local] Arguments bind : simpl never.

Lemma mapM_raises {A B} (e : PyError) (f : A -> M B) (l : list A) :
  raises e (mapM f l) -> exists x, In x l /\ raises e (f x).
Proof.
  induction l as [| x r IH]; simpl; intros H.
  - discriminate H.
  - apply bind_raises in H as [H | [y [_ H]]].
    + exists x; auto.
    + apply bind_raises in H as [H | [ys [_ H]]].
      * destruct (IH H) as [z [Hz Hr]]; exists z; auto.
      * discriminate H.
Qed.

Lemma mapM_trace {A B} (f : A -> M B) (l : list A) :
  (forall x, fst (f x) = []) -> fst (mapM f l) = [].
Proof.
  intros Hf; induction l as [| x r IH]; simpl; [reflexivity |].
  rewrite bind_trace, Hf; simpl.
  destruct (snd (f x)); [reflexivity |].
  rewrite bind_trace, IH; simpl; destruct (snd (mapM f r)); reflexivity.
Qed.

Lemma nth_or_index_error_raises {A} e (row : list A) j :
  raises e (nth_or_index_error row j) -> e = IndexError.
Proof.
  unfold raises, nth_or_index_error; destruct (nth_error row j); simpl;
    congruence.
Qed.

Lemma index_col_raises {A} e (t : list (list A)) j :
  raises e (index_col t j) -> e = IndexError.
Proof.
  intros H; apply mapM_raises in H as [row [_ H]].
  exact (nth_or_index_error_raises e row j H).
Qed.

Lemma index_select_rows_raises {A} e (rows : list A) idx :
  raises e (index_select_rows rows idx) -> e = IndexError.
Proof.
  intros H; apply mapM_raises in H as [i [_ H]].
  exact (nth_or_index_error_raises e rows i H).
Qed.

Lemma index_copy_col_raises e t j vals :
  raises e (index_copy_col t j vals) -> e = IndexError.
Proof.
  intros H; apply mapM_raises in H as [rv [_ H]].
  revert H; unfold raises; destruct (Nat.ltb j (length (fst rv))); simpl;
    congruence.
Qed.

Lemma decode_loop_raises nt e fuel step mt pm inp buf j :
  raises e (decode_loop nt fuel step mt pm inp buf j) -> e = IndexError.
Proof.
  revert step inp buf j; induction fuel as [| fuel IH]; simpl; intros step inp buf j H.
  - discriminate H.
  - apply bind_raises in H as [H | [_u [_ H]]]; [discriminate H |].
    apply bind_raises in H as [H | [cm [_ H]]]; [exact (index_col_raises _ _ _ H) |].
    apply bind_raises in H as [H | [ct [_ H]]]; [exact (index_col_raises _ _ _ H) |].
    apply bind_raises in H as [H | [b [_ H]]]; [exact (index_copy_col_raises _ _ _ _ H) |].
    apply bind_raises in H as [H | [_w [_ H]]]; [discriminate H |].
    apply bind_raises in H as [H | [_s [_ H]]];
      [exact (index_select_rows_raises _ _ _ H) | exact (IH _ _ _ _ H)].
Qed.

Lemma kv_loop_ok layers size acc :
  layers <> [] ->
  kv_loop layers size acc = (map EvAllocKV layers, inr (KVTuple (zeros size, zeros size))).
Proof.
  revert acc; induction layers as [| l rest IH]; intros acc Hne; [congruence |].
  destruct rest as [| l' rest'].
  - reflexivity.
  - change (kv_loop (l :: l' :: rest') size acc) with
      (bind (tell (EvAllocKV l))
            (fun _ => kv_loop (l' :: rest') size (KVTuple (zeros size, zeros size)))).
    rewrite (bind_ok _ _ [EvAllocKV l] tt) by reflexivity.
    rewrite IH by discriminate; reflexivity.
Qed.

Lemma kv_loop_ok_any layers size acc :
  exists kv, kv_loop layers size acc = (map EvAllocKV layers, inr kv).
Proof.
  destruct layers as [| l r].
  - exists acc; reflexivity.
  - eexists; apply kv_loop_ok; discriminate.
Qed.

Lemma cat_last_raises e a b : raises e (cat_last a b) -> e = ShapeError.
Proof.
  unfold raises, cat_last; destruct (Nat.eqb (length a) (length b)); simpl; congruence.
Qed.

Lemma prepare_inputs_raises e s prompts bs mn mx :
  raises e (prepare_inputs s prompts bs mn mx) -> e = ShapeError.
Proof.
  unfold prepare_inputs; intros H.
  apply bind_raises in H as [H | [_u [_ H]]]; [discriminate H |].
  apply bind_raises in H as [H | [t [_ H]]]; [exact (cat_last_raises _ _ _ H) |].
  apply bind_raises in H as [H | [t' [_ H]]]; [exact (cat_last_raises _ _ _ H) |].
  discriminate H.
Qed.

Lemma bind_ret {A B} (a : A) (f : A -> M B) : bind (ret a) f = f a.
Proof. unfold bind, ret; simpl; destruct (f a); reflexivity. Qed.

Lemma bind_raise {A B} (e : PyError) (f : A -> M B) : bind (raise e) f = ([], inl e).
Proof. reflexivity. Qed.

Lemma py_min_max_cons (l : list nat) mx :
  py_max l = ret mx -> exists mn, py_min l = ret mn.
Proof. destruct l as [| x r]; [discriminate | eexists; reflexivity]. Qed.

Lemma py_max_length (prompts : list (list Z)) mx :
  py_max (map (@length Z) prompts) = ret mx -> prompts <> [].
Proof. destruct prompts; [discriminate | discriminate]. Qed.

(** [generate_buffer] once [min] and [max] are known. *)
Lemma generate_buffer_eq nt self prompts out mn mx :
  py_min (map (@length Z) prompts) = ret mn ->
  py_max (map (@length Z) prompts) = ret mx ->
  generate_buffer nt self prompts out =
  if Nat.leb (mx + out) (pos_enc_max_len (decoder self)) then
    bind (build_kv_caches self (length prompts) mn) (fun _ =>
    bind (prepare_inputs (sos self) prompts (length prompts) mn mx) (fun bufs =>
    bind (index_select_rows (triu_mask mx) (seq 0 mn)) (fun _ =>
    decode_loop nt (mx + out - mn) 0 (triu_mask mx)
      (map (map (fun t => negb (Z.eqb t IGNORE_ID))) (fst bufs))
      (snd bufs) (fst bufs) mn)))
  else ([], inl AssertionError).
Proof.
  intros Hmn Hmx; unfold generate_buffer; cbv beta zeta.
  rewrite Hmn, bind_ret; cbv beta.
  rewrite Hmx, bind_ret; cbv beta.
  destruct (Nat.leb _ _); [rewrite bind_ret | rewrite bind_raise]; reflexivity.
Qed.

Lemma build_kv_caches_raises e self bs mn :
  raises e (build_kv_caches self bs mn) -> e = AttributeError.
Proof.
  unfold build_kv_caches, get_config; destruct (config self) as [cfg |].
  - rewrite bind_ret; destruct (kv_loop_ok_any (seq 0 (num_hidden_layers cfg))
      [bs; n_kv_head (decoder self); mn; head_dim (decoder self)] (KVList []))
      as [kv Hkv].
    unfold raises; rewrite Hkv; discriminate.
  - unfold raises; rewrite bind_raise; simpl; congruence.
Qed.

Lemma build_kv_caches_some self cfg bs mn :
  config self = Some cfg ->
  exists kv, build_kv_caches self bs mn =
             (map EvAllocKV (seq 0 (num_hidden_layers cfg)), inr kv).
Proof.
  intros Hc; unfold build_kv_caches, get_config; rewrite Hc, bind_ret.
  apply kv_loop_ok_any.
Qed.

Lemma generate_trace nt self prompts out :
  fst (generate nt self prompts out) = fst (generate_buffer nt self prompts out).
Proof.
  unfold generate; rewrite bind_trace.
  destruct (snd (generate_buffer nt self prompts out)); simpl; apply app_nil_r.
Qed.

Lemma generate_raises nt self prompts out e :
  raises e (generate nt self prompts out) ->
  raises e (generate_buffer nt self prompts out).
Proof.
  unfold generate; intros H; apply bind_raises in H as [H | [b [_ H]]];
    [exact H | discriminate H].
Qed.

(** Within the position limit, the only exceptions left are the attribute
    lookup, the concatenation and the index selections. *)
Lemma generate_raises_within nt self prompts out mx e :
  py_max (map (@length Z) prompts) = ret mx ->
  mx + out <= pos_enc_max_len (decoder self) ->
  raises e (generate nt self prompts out) ->
  e = AttributeError \/ e = ShapeError \/ e = IndexError.
Proof.
  intros Hmx Hle H; apply generate_raises in H.
  destruct (py_min_max_cons _ _ Hmx) as [mn Hmn].
  rewrite (generate_buffer_eq nt self prompts out mn mx Hmn Hmx) in H.
  apply Nat.leb_le in Hle; rewrite Hle in H.
  apply bind_raises in H as [H | [_k [_ H]]];
    [left; exact (build_kv_caches_raises _ _ _ _ H) |].
  apply bind_raises in H as [H | [bufs [_ H]]];
    [right; left; exact (prepare_inputs_raises _ _ _ _ _ _ H) |].
  apply bind_raises in H as [H | [_s [_ H]]]; right; right;
    [exact (index_select_rows_raises _ _ _ H) | exact (decode_loop_raises _ _ _ _ _ _ _ _ _ H)].
Qed.

Lemma prepare_inputs_single s p mn mx :
  prepare_inputs s [p] 1 mn mx =
  ([EvAllocBuf], inr ([s :: set_prefix (repeat IGNORE_ID mx) p],
                      [s :: s :: set_prefix (repeat IGNORE_ID mx) p])).
Proof. reflexivity. Qed.

Lemma prepare_inputs_multi s prompts bs mn mx :
  length prompts <> 1 ->
  prepare_inputs s prompts bs mn mx = ([EvAllocBuf], inl ShapeError).
Proof.
  intros Hl; unfold prepare_inputs, cat_last; cbv beta zeta.
  assert (Hb : Nat.eqb (length [repeat s bs])
                 (length (map (fun p => set_prefix (repeat IGNORE_ID mx) p) prompts))
               = false).
  { rewrite length_map; apply Nat.eqb_neq; simpl; congruence. }
  rewrite Hb; reflexivity.
Qed.

Lemma set_prefix_full (p : list Z) : set_prefix (repeat IGNORE_ID (length p)) p = p.
Proof.
  unfold set_prefix; rewrite skipn_all2 by (rewrite repeat_length; lia).
  apply app_nil_r.
Qed.

(** ** Output extractor helpers *)

Lemma py_in_In x l : py_in x l = true <-> In x l.
Proof.
  unfold py_in; rewrite existsb_exists; split.
  - intros [y [Hy Heq]]; apply Z.eqb_eq in Heq; subst; exact Hy.
  - intros H; exists x; split; [exact H | apply Z.eqb_refl].
Qed.

Lemma py_index_first x l k :
  nth_error l k = Some x -> ~ In x (firstn k l) -> py_index x l = Some k.
Proof.
  revert k; induction l as [| y r IH]; intros k Hk Hnin.
  - destruct k; discriminate.
  - destruct k as [| k]; simpl in *.
    + injection Hk as ->; rewrite Z.eqb_refl; reflexivity.
    + destruct (Z.eqb y x) eqn:E.
      * apply Z.eqb_eq in E; subst; exfalso; apply Hnin; left; reflexivity.
      * rewrite (IH k Hk (fun H => Hnin (or_intror H))); reflexivity.
Qed.

Lemma nth_error_combine {A B} (l1 : list A) (l2 : list B) i a b :
  nth_error l1 i = Some a -> nth_error l2 i = Some b ->
  nth_error (combine l1 l2) i = Some (a, b).
Proof.
  revert l2 i; induction l1 as [| x r IH]; intros l2 i H1 H2.
  - destruct i; discriminate.
  - destruct l2 as [| y r2]; [destruct i; discriminate |].
    destruct i; simpl in *; [congruence | apply IH; assumption].
Qed.

(** ** Decode-loop helpers *)

Lemma bind_inr {A B} (m : M A) (f : A -> M B) b :
  snd (bind m f) = inr b -> exists a, snd m = inr a /\ snd (f a) = inr b.
Proof.
  destruct m as [t [e | a]]; unfold bind; simpl; [discriminate |].
  destruct (f a) as [t' r] eqn:E; simpl; intros H; exists a; rewrite E; auto.
Qed.

Lemma bind_in {A B} ev (m : M A) (f : A -> M B) :
  In ev (fst (bind m f)) ->
  In ev (fst m) \/ exists a, snd m = inr a /\ In ev (fst (f a)).
Proof.
  rewrite bind_trace; intros H; apply in_app_or in H as [H | H]; [auto |].
  destruct (snd m) as [e | a]; [destruct H | right; exists a; auto].
Qed.

Lemma mapM_nil_trace {A B} (f : A -> M B) l :
  (forall x, fst (f x) = []) -> forall ev, ~ In ev (fst (mapM f l)).
Proof. intros Hf ev; rewrite (mapM_trace f l Hf); intros []. Qed.

Lemma nth_or_index_error_trace {A} (row : list A) j : fst (nth_or_index_error row j) = [].
Proof. unfold nth_or_index_error; destruct (nth_error row j); reflexivity. Qed.

Lemma index_col_trace {A} (t : list (list A)) j ev : ~ In ev (fst (index_col t j)).
Proof. apply mapM_nil_trace; intros; apply nth_or_index_error_trace. Qed.

Lemma index_select_rows_trace {A} (rows : list A) idx ev :
  ~ In ev (fst (index_select_rows rows idx)).
Proof. apply mapM_nil_trace; intros; apply nth_or_index_error_trace. Qed.

Lemma index_copy_col_trace t j vals ev : ~ In ev (fst (index_copy_col t j vals)).
Proof.
  apply mapM_nil_trace; intros rv; destruct (Nat.ltb j (length (fst rv))); reflexivity.
Qed.

Lemma mapM_inr_cons {A B} (f : A -> M B) x r l :
  snd (mapM f (x :: r)) = inr l ->
  exists y ys, snd (f x) = inr y /\ snd (mapM f r) = inr ys /\ l = y :: ys.
Proof.
  simpl; intros H.
  apply bind_inr in H as [y [Hy H]]; apply bind_inr in H as [ys [Hys H]].
  exists y, ys; repeat split; auto; simpl in H; congruence.
Qed.

Lemma index_col_nth {A} (t : list (list A)) j l :
  snd (index_col t j) = inr l ->
  length l = length t /\ forall r, nth_error l r = cell t r j.
Proof.
  unfold index_col, cell; revert l; induction t as [| row t IH]; intros l H.
  - simpl in H; injection H as <-; split; [reflexivity | intros [| r]; reflexivity].
  - apply mapM_inr_cons in H as [y [ys [Hy [Hys ->]]]].
    destruct (IH ys Hys) as [Hlen Hnth]; split; [simpl; congruence |].
    intros [| r]; simpl; [| apply Hnth].
    unfold nth_or_index_error in Hy; destruct (nth_error row j); simpl in Hy;
      congruence.
Qed.

Lemma nth_error_list_set_same {A} (l : list A) j v :
  j < length l -> nth_error (list_set l j v) j = Some v.
Proof.
  revert j; induction l as [| x r IH]; intros j Hj; [simpl in Hj; lia |].
  destruct j; simpl; [reflexivity | apply IH; simpl in Hj; lia].
Qed.

Lemma nth_error_list_set_other {A} (l : list A) j j' v :
  j <> j' -> nth_error (list_set l j v) j' = nth_error l j'.
Proof.
  revert j j'; induction l as [| x r IH]; intros j j' Hne; [reflexivity |].
  destruct j, j'; simpl; try reflexivity; [congruence |].
  apply IH; congruence.
Qed.

Lemma index_copy_col_nth t j vals t' :
  snd (index_copy_col t j vals) = inr t' ->
  length t' = length (combine t vals) /\
  forall r row v, nth_error t r = Some row -> nth_error vals r = Some v ->
    j < length row /\ nth_error t' r = Some (list_set row j v).
Proof.
  unfold index_copy_col; revert vals t'; induction t as [| row t IH];
    intros vals t' H.
  - simpl in H; injection H as <-; split; [reflexivity | intros [| r]; discriminate].
  - destruct vals as [| v vals].
    + simpl in H; injection H as <-; split; [reflexivity |].
      intros r row' v Hr Hv; destruct r; discriminate.
    + simpl combine in H; apply mapM_inr_cons in H as [y [ys [Hy [Hys ->]]]].
      destruct (IH vals ys Hys) as [Hlen Hnth]; split; [simpl; congruence |].
      intros [| r] row' v' Hr Hv; simpl in Hr, Hv |- *.
      * injection Hr as <-; injection Hv as <-; simpl in Hy.
        destruct (Nat.ltb j (length row)) eqn:E; [| discriminate Hy].
        apply Nat.ltb_lt in E; simpl in Hy; split; congruence.
      * apply Hnth; assumption.
Qed.

Lemma nth_error_forcing cm ct nts r :
  nth_error (map (fun mcn : bool * (Z * Z) =>
                    if fst mcn then fst (snd mcn) else snd (snd mcn))
                 (combine cm (combine ct nts))) r =
  match nth_error cm r, nth_error ct r, nth_error nts r with
  | Some m, Some c, Some n => Some (if m then c else n)
  | _, _, _ => None
  end.
Proof.
  rewrite nth_error_map.
  revert ct nts r; induction cm as [| m cm IH]; intros ct nts r.
  - destruct r; reflexivity.
  - destruct ct as [| c ct]; [destruct r; simpl; [reflexivity | destruct (nth_error cm r); reflexivity] |].
    destruct nts as [| n nts].
    + destruct r; simpl; [reflexivity |].
      destruct (nth_error cm r), (nth_error ct r); reflexivity.
    + destruct r; simpl; [reflexivity | apply IH].
Qed.

(** One iteration of the loop: the forced/free merge and the write. *)
Lemma decode_step pm buf buf0 j cm ct nts :
  length pm = length buf -> forced_agree pm buf buf0 ->
  snd (index_col pm j) = inr cm -> snd (index_col buf j) = inr ct ->
  length nts = length buf ->
  let toks := map (fun mcn : bool * (Z * Z) =>
                     if fst mcn then fst (snd mcn) else snd (snd mcn))
                  (combine cm (combine ct nts)) in
  (forall r, cell pm r j = Some true -> nth_error toks r = cell buf0 r j) /\
  (forall buf', snd (index_copy_col buf j toks) = inr buf' ->
     length buf' = length buf /\ forced_agree pm buf' buf0).
Proof.
  intros Hpm Hagree Hcm Hct Hnts toks.
  destruct (index_col_nth _ _ _ Hcm) as [Lcm Ncm].
  destruct (index_col_nth _ _ _ Hct) as [Lct Nct].
  assert (Htok : forall r, r < length buf ->
            exists m c n, nth_error cm r = Some m /\ nth_error ct r = Some c /\
                          nth_error nts r = Some n /\
                          nth_error toks r = Some (if m then c else n)).
  { intros r Hr; unfold toks; rewrite nth_error_forcing.
    destruct (nth_error cm r) as [m |] eqn:E1;
      [| apply nth_error_None in E1; lia].
    destruct (nth_error ct r) as [c |] eqn:E2;
      [| apply nth_error_None in E2; lia].
    destruct (nth_error nts r) as [n |] eqn:E3;
      [| apply nth_error_None in E3; lia].
    exists m, c, n; auto. }
  assert (Hlt : forall r k, cell pm r k = Some true -> r < length buf).
  { intros r k H; unfold cell in H; destruct (nth_error pm r) eqn:E; [| discriminate].
    rewrite <- Hpm; apply nth_error_Some; congruence. }
  assert (Hforced : forall r, cell pm r j = Some true -> nth_error toks r = cell buf0 r j).
  { intros r Hr; destruct (Htok r (Hlt _ _ Hr)) as [m [c [n [Hm [Hc [_ Ht]]]]]].
    rewrite Ncm, Hr in Hm; injection Hm as <-.
    rewrite Ht, <- (Hagree r j Hr), <- Nct; symmetry; exact Hc. }
  split; [exact Hforced |].
  intros buf' Hcopy; destruct (index_copy_col_nth _ _ _ _ Hcopy) as [Lb Nb].
  assert (Ltoks : length toks = length buf).
  { unfold toks; rewrite length_map, !length_combine; lia. }
  split; [rewrite Lb, length_combine; lia |].
  intros r k Hr.
  destruct (nth_error buf r) as [row |] eqn:Erow;
    [| apply nth_error_None in Erow; pose proof (Hlt _ _ Hr); lia].
  destruct (nth_error toks r) as [v |] eqn:Ev;
    [| apply nth_error_None in Ev; pose proof (Hlt _ _ Hr); lia].
  destruct (Nb r row v Erow Ev) as [Hj Hrow'].
  assert (Hc' : cell buf' r k = nth_error (list_set row j v) k)
    by (unfold cell; rewrite Hrow'; reflexivity).
  rewrite Hc'.
  destruct (Nat.eq_dec j k) as [<- | Hne].
  - rewrite nth_error_list_set_same by exact Hj.
    rewrite <- Ev; apply Hforced; exact Hr.
  - rewrite nth_error_list_set_other by exact Hne.
    rewrite <- (Hagree r k Hr); unfold cell; rewrite Erow; reflexivity.
Qed.

(** The decode loop: every write puts the initial buffer's entry where the
    prompt mask is true, and a completed loop leaves those entries as they
    were. *)
Lemma decode_loop_forced nt fuel step mt pm inp buf j buf0 :
  length pm = length buf -> forced_agree pm buf buf0 ->
  let res := decode_loop nt fuel step mt pm inp buf j in
  (forall j' toks, In (EvWrite j' toks) (fst res) ->
     forall r, cell pm r j' = Some true -> nth_error toks r = cell buf0 r j') /\
  (forall buf', snd res = inr buf' -> forced_agree pm buf' buf0).
Proof.
  revert step inp buf j; induction fuel as [| fuel IH];
    intros step inp buf j Hpm Hagree res.
  - split; [intros j' toks [] |].
    intros buf' H; simpl in H; injection H as <-; exact Hagree.
  - set (nts := map (nt step) (seq 0 (length buf))).
    assert (Hnts : length nts = length buf) by (unfold nts; rewrite length_map, length_seq; reflexivity).
    split.
    + intros j' toks H r Hr; unfold res in H; simpl decode_loop in H.
      apply bind_in in H as [[H | []] | [_u [_ H]]]; [discriminate H |].
      apply bind_in in H as [H | [cm [Hcm H]]]; [destruct (index_col_trace _ _ _ H) |].
      apply bind_in in H as [H | [ct [Hct H]]]; [destruct (index_col_trace _ _ _ H) |].
      destruct (decode_step pm buf buf0 j cm ct nts Hpm Hagree Hcm Hct Hnts)
        as [Hforced Hnext].
      apply bind_in in H as [H | [buf' [Hb H]]]; [destruct (index_copy_col_trace _ _ _ _ H) |].
      apply bind_in in H as [[H | []] | [_w [_ H]]].
      * injection H as <- <-; exact (Hforced r Hr).
      * apply bind_in in H as [H | [_s [_ H]]];
          [destruct (index_select_rows_trace _ _ _ H) |].
        destruct (Hnext buf' Hb) as [Hl Ha].
        refine (proj1 (IH _ _ buf' _ ltac:(lia) Ha) j' toks H r Hr).
    + intros bufF H; unfold res in H; simpl decode_loop in H.
      apply bind_inr in H as [_u [_ H]].
      apply bind_inr in H as [cm [Hcm H]].
      apply bind_inr in H as [ct [Hct H]].
      destruct (decode_step pm buf buf0 j cm ct nts Hpm Hagree Hcm Hct Hnts)
        as [_ Hnext].
      apply bind_inr in H as [buf' [Hb H]].
      apply bind_inr in H as [_w [_ H]].
      apply bind_inr in H as [_s [_ H]].
      destruct (Hnext buf' Hb) as [Hl Ha].
      exact (proj2 (IH _ _ buf' _ ltac:(lia) Ha) bufF H).
Qed.

Lemma prepare_inputs_token_ids s prompts mn mx bufs :
  snd (prepare_inputs s prompts (length prompts) mn mx) = inr bufs ->
  fst bufs = map (fun p => s :: set_prefix (repeat IGNORE_ID mx) p) prompts.
Proof.
  destruct prompts as [| p [| q r]]; intros H.
  - rewrite prepare_inputs_multi in H by discriminate; discriminate H.
  - simpl length in H; rewrite prepare_inputs_single in H; simpl in H.
    injection H as <-; reflexivity.
  - rewrite prepare_inputs_multi in H by discriminate; discriminate H.
Qed.

Lemma cell_map_map {A B} (f : A -> B) t r j :
  cell (map (map f) t) r j = option_map f (cell t r j).
Proof.
  unfold cell; rewrite nth_error_map.
  destruct (nth_error t r); simpl; [apply nth_error_map | reflexivity].
Qed.

(** The aligned row [sos :: p ++ padding] holds [sos :: p] at its front. *)
Lemma cell_aligned s mx prompts r p j t :
  nth_error prompts r = Some p -> nth_error (s :: p) j = Some t ->
  cell (map (fun p => s :: set_prefix (repeat IGNORE_ID mx) p) prompts) r j = Some t.
Proof.
  intros Hp Ht; unfold cell; rewrite nth_error_map, Hp; simpl.
  unfold set_prefix; rewrite app_comm_cons, nth_error_app1; [exact Ht |].
  apply nth_error_Some; congruence.
Qed.

(** * Claims *)

(** C1 (code_bug evidence).  Given a [config] with [L >= 1] layers, the
    allocation loop of [generate] allocates a zero (key, value) pair [L]
    times but rebinds [kv_caches] to the last pair each time: the value
    handed to the decoder is a single (k, v) tuple, not a per-layer
    collection of [L] pairs. *)
Theorem build_kv_caches_single_pair :
  forall self cfg batch_size min_prompt_len,
  config self = Some cfg -> 1 <= num_hidden_layers cfg ->
  let size := [batch_size; n_kv_head (decoder self); min_prompt_len;
               head_dim (decoder self)] in
  build_kv_caches self batch_size min_prompt_len =
  (map EvAllocKV (seq 0 (num_hidden_layers cfg)),
   inr (KVTuple (zeros size, zeros size))).
Proof.
  intros self cfg bs mn Hc HL size.
  unfold build_kv_caches, get_config; rewrite Hc, bind_ret.
  apply kv_loop_ok.
  destruct (num_hidden_layers cfg); [lia | discriminate].
Qed.

Lemma build_kv_caches_single_pair_witness :
  config (lm_cfg 2) = Some (mkConfig 2) /\ 1 <= num_hidden_layers (mkConfig 2) /\
  build_kv_caches (lm_cfg 2) 2 2 =
  ([EvAllocKV 0; EvAllocKV 1], inr (KVTuple (zeros [2; 2; 2; 8], zeros [2; 2; 2; 8]))).
Proof.
  split; [reflexivity | split; [simpl; lia |]].
  apply (build_kv_caches_single_pair (lm_cfg 2) (mkConfig 2) 2 2);
    [reflexivity | simpl; lia].
Defined.

(** C2.  Teacher forcing.  Every write of the decode loop at a column [j]
    puts, for each example whose prompt mask is true there (its aligned
    row [sos :: p] has a non-sentinel token [t] at [j]), that token [t]
    rather than the sampled one; and when the loop completes, the final
    buffer holds each prompt [p] at columns [1 .. len p] (after the SOS). *)
Theorem generate_teacher_forcing :
  forall nt self prompts_tokens output_len,
  (forall j toks r p t,
     In (EvWrite j toks) (fst (generate nt self prompts_tokens output_len)) ->
     nth_error prompts_tokens r = Some p ->
     nth_error (sos self :: p) j = Some t -> t <> IGNORE_ID ->
     nth_error toks r = Some t) /\
  (forall buf, snd (generate_buffer nt self prompts_tokens output_len) = inr buf ->
     forall r p k t, nth_error prompts_tokens r = Some p ->
     nth_error p k = Some t -> t <> IGNORE_ID ->
     cell buf r (S k) = Some t).
Proof.
  intros nt self prompts out.
  destruct prompts as [| p0 ps] eqn:Eprompts.
  { split; [intros j toks r p t H; destruct H | intros buf H; discriminate H]. }
  rewrite <- Eprompts.
  assert (Hmx : exists mx, py_max (map (@length Z) prompts) = ret mx)
    by (subst; eexists; reflexivity).
  destruct Hmx as [mx Hmx]; destruct (py_min_max_cons _ _ Hmx) as [mn Hmn].
  rewrite generate_trace.
  rewrite (generate_buffer_eq nt self prompts out mn mx Hmn Hmx).
  destruct (Nat.leb (mx + out) (pos_enc_max_len (decoder self))).
  2:{ split; [intros j toks r p t H; destruct H | intros buf H; discriminate H]. }
  set (s := sos self).
  set (L := fun bufs : list (list Z) * list (list Z) =>
        decode_loop nt (mx + out - mn) 0 (triu_mask mx)
          (map (map (fun t => negb (Z.eqb t IGNORE_ID))) (fst bufs))
          (snd bufs) (fst bufs) mn).
  (* the loop's facts once the buffers are built *)
  assert (HL : forall bufs, snd (prepare_inputs s prompts (length prompts) mn mx) = inr bufs ->
    (forall j toks r p t, In (EvWrite j toks) (fst (L bufs)) ->
       nth_error prompts r = Some p -> nth_error (s :: p) j = Some t ->
       t <> IGNORE_ID -> nth_error toks r = Some t) /\
    (forall buf, snd (L bufs) = inr buf ->
       forall r p k t, nth_error prompts r = Some p -> nth_error p k = Some t ->
       t <> IGNORE_ID -> cell buf r (S k) = Some t)).
  { intros bufs Hb; pose proof (prepare_inputs_token_ids _ _ _ _ _ Hb) as Hbuf0.
    set (pm := map (map (fun t => negb (Z.eqb t IGNORE_ID))) (fst bufs)).
    assert (Hmask : forall r p j t, nth_error prompts r = Some p ->
              nth_error (s :: p) j = Some t -> t <> IGNORE_ID ->
              cell pm r j = Some true /\ cell (fst bufs) r j = Some t).
    { intros r p j t Hp Ht Hne.
      assert (Hc : cell (fst bufs) r j = Some t)
        by (rewrite Hbuf0; exact (cell_aligned s mx prompts r p j t Hp Ht)).
      split; [| exact Hc].
      unfold pm; rewrite cell_map_map, Hc; simpl.
      apply Z.eqb_neq in Hne; rewrite Hne; reflexivity. }
    assert (Hlen : length pm = length (fst bufs)) by (unfold pm; apply length_map).
    destruct (decode_loop_forced nt (mx + out - mn) 0 (triu_mask mx) pm (snd bufs)
                (fst bufs) mn (fst bufs) Hlen (fun r k _ => eq_refl)) as [H1 H2].
    split.
    - intros j toks r p t Hin Hp Ht Hne.
      destruct (Hmask r p j t Hp Ht Hne) as [Hm Hc].
      rewrite (H1 j toks Hin r Hm); exact Hc.
    - intros buf Hres r p k t Hp Hk Hne.
      destruct (Hmask r p (S k) t Hp Hk Hne) as [Hm Hc].
      rewrite (H2 buf Hres r (S k) Hm); exact Hc. }
  split.
  - intros j toks r p t H Hp Ht Hne.
    apply bind_in in H as [H | [kv [_ H]]].
    { unfold build_kv_caches in H; apply bind_in in H as [H | [cfg [_ H]]].
      - unfold get_config in H; destruct (config self); destruct H.
      - destruct (kv_loop_ok_any (seq 0 (num_hidden_layers cfg))
          [length prompts; n_kv_head (decoder self); mn; head_dim (decoder self)]
          (KVList [])) as [kvv Hkv].
        rewrite Hkv in H; simpl in H; apply in_map_iff in H as [l [Hl _]];
          discriminate Hl. }
    apply bind_in in H as [H | [bufs [Hb H]]].
    { unfold prepare_inputs in H; apply bind_in in H as [[H | []] | [_u [_ H]]];
        [discriminate H |].
      cbv zeta in H; unfold cat_last in H.
      apply bind_in in H as [H | [t1 [_ H]]];
        [destruct (Nat.eqb _ _) in H; destruct H |].
      apply bind_in in H as [H | [t2 [_ H]]];
        [destruct (Nat.eqb _ _) in H; destruct H | destruct H]. }
    apply bind_in in H as [H | [_s [_ H]]];
      [destruct (index_select_rows_trace _ _ _ H) |].
    exact (proj1 (HL bufs Hb) j toks r p t H Hp Ht Hne).
  - intros buf H.
    apply bind_inr in H as [kv [_ H]].
    apply bind_inr in H as [bufs [Hb H]].
    apply bind_inr in H as [_s [_ H]].
    exact (proj2 (HL bufs Hb) buf H).
Qed.

Lemma generate_teacher_forcing_witness :
  nth_error [6%Z] 0 = Some 6%Z /\
  cell [[1; 5; 6]]%Z 0 2 = Some 6%Z.
Proof.
  destruct (generate_teacher_forcing sampler9 (lm_cfg 2) [[5; 6]]%Z 1) as [H1 _].
  destruct (generate_teacher_forcing sampler9 (lm_cfg 2) [[5; 6]]%Z 0) as [_ H2].
  split.
  - apply (H1 2 [6%Z] 0 [5; 6]%Z 6%Z); [vm_compute; do 4 right; left; reflexivity | reflexivity | reflexivity | discriminate].
  - apply (H2 [[1; 5; 6]]%Z ltac:(vm_compute; reflexivity) 0 [5; 6]%Z 1 6%Z);
      [reflexivity | reflexivity | discriminate].
Defined.

(** C3 (code_bug evidence).  On an object built by [__init__], which never
    assigns [self.config], every call of [generate] on a non-empty batch
    raises: an [AttributeError] at [self.config.num_hidden_layers] when the
    position limit holds, the assertion otherwise.  Nothing is allocated and
    the decoder is never invoked. *)
Theorem generate_init_raises :
  forall nt vocab dec st tie ig prompts out mx,
  py_max (map (@length Z) prompts) = ret mx ->
  generate nt (init vocab dec st tie ig) prompts out =
  ([], inl (if Nat.leb (mx + out) (pos_enc_max_len dec)
            then AttributeError else AssertionError)).
Proof.
  intros nt vocab dec st tie ig prompts out mx Hmx.
  destruct (py_min_max_cons _ _ Hmx) as [mn Hmn].
  unfold generate; rewrite (generate_buffer_eq nt _ prompts out mn mx Hmn Hmx).
  destruct (Nat.leb (mx + out) _); reflexivity.
Qed.

Lemma generate_init_raises_witness :
  py_max (map (@length Z) [[5; 6; 7]; [5; 6]]%Z) = ret 3 /\
  generate sampler9 lm0 [[5; 6; 7]; [5; 6]]%Z 3 = ([], inl AttributeError).
Proof.
  split; [reflexivity |].
  apply (generate_init_raises sampler9 32 dec0 (mkSpecial 1 2) false IGNORE_ID
           [[5; 6; 7]; [5; 6]]%Z 3 3).
  reflexivity.
Defined.

(** C4 (code_bug evidence).  For a single prompt [p] (the only batch size
    for which the concatenations succeed) the token buffer is [sos :: p],
    but the decoder input is [sos :: sos :: p]: the second concatenation
    takes the already prefixed token buffer instead of the
    [min_prompt_len]-wide input buffer.  On [[5; 6]] the first decoder call
    receives [[1; 1; 5; 6]] rather than [[1; 5; 6]]. *)
Theorem prepare_inputs_input_buffer :
  (forall s p, prepare_inputs s [p] 1 (length p) (length p) =
               ([EvAllocBuf], inr ([s :: p], [s :: s :: p]))) /\
  (forall nt, fst (generate nt (lm_cfg 2) [[5; 6]]%Z 1) =
     [EvAllocKV 0; EvAllocKV 1; EvAllocBuf; EvDecoder 0 [[1; 1; 5; 6]]%Z;
      EvWrite 2 [6%Z]]).
Proof.
  split.
  - intros s p; rewrite prepare_inputs_single, set_prefix_full; reflexivity.
  - intros nt; reflexivity.
Qed.

(** C5.  The output extractor, for every example: when the slice of its
    buffer row [tokens[len(p) : len(p) + output_len]] holds the EOS id,
    first at position [k], the returned sequence has exactly [k] tokens, none
    of them EOS; when the slice holds no EOS it is returned untruncated. *)
Theorem extract_results_eos :
  forall eos output_len prompts_tokens token_ids i p tokens,
  nth_error prompts_tokens i = Some p -> nth_error token_ids i = Some tokens ->
  let c := py_slice tokens (length p) (length p + output_len) in
  exists r, nth_error (extract_results eos output_len prompts_tokens token_ids) i = Some r /\
    (forall k, nth_error c k = Some eos -> ~ In eos (firstn k c) ->
               length r = k /\ ~ In eos r) /\
    (~ In eos c -> r = c).
Proof.
  intros eos out prompts buf i p tokens Hp Ht c.
  exists (trim_eos eos c); split.
  - unfold extract_results; rewrite nth_error_map.
    rewrite (nth_error_combine _ _ _ _ _ Hp Ht); reflexivity.
  - split.
    + intros k Hk Hnin; unfold trim_eos.
      assert (Hin : In eos c) by (eapply nth_error_In; eauto).
      apply py_in_In in Hin; rewrite Hin.
      rewrite (py_index_first eos c k Hk Hnin); split; [| exact Hnin].
      apply firstn_length_le; apply Nat.lt_le_incl.
      apply nth_error_Some; congruence.
    + intros Hnin; unfold trim_eos.
      destruct (py_in eos c) eqn:E; [apply py_in_In in E; contradiction | reflexivity].
Qed.

Lemma extract_results_eos_witness :
  exists r, nth_error (extract_results 2 3 [[5; 6]]%Z [[1; 5; 6; 4; 2; 7]]%Z) 0 = Some r /\
    length r = 2 /\ ~ In 2%Z r.
Proof.
  destruct (extract_results_eos 2 3 [[5; 6]]%Z [[1; 5; 6; 4; 2; 7]]%Z 0 [5; 6]%Z
              [1; 5; 6; 4; 2; 7]%Z eq_refl eq_refl) as [r [Hr [Hk _]]].
  exists r; split; [exact Hr |].
  apply (Hk 2); [reflexivity | simpl; intros [H | [H | []]]; discriminate].
Defined.

(** C7 (code_bug evidence).  For the prompts [[5;6;7]; [5;6]] and
    [output_len = 3] the loop bound is [3 + 3 - 2 = 4], but no decode step
    runs: on an object built by [__init__] the call stops at [self.config];
    with a [config] it stops at the SOS concatenation.  With a single prompt
    [[5; 6]] and [output_len = 3] it stops inside the first of its 3 steps. *)
Theorem generate_decode_steps_example :
  forall nt,
  generate nt lm0 [[5; 6; 7]; [5; 6]]%Z 3 = ([], inl AttributeError) /\
  generate nt (lm_cfg 2) [[5; 6; 7]; [5; 6]]%Z 3 =
    ([EvAllocKV 0; EvAllocKV 1; EvAllocBuf], inl ShapeError) /\
  generate nt (lm_cfg 2) [[5; 6]]%Z 3 =
    ([EvAllocKV 0; EvAllocKV 1; EvAllocBuf; EvDecoder 0 [[1; 1; 5; 6]]%Z;
      EvWrite 2 [6%Z]], inl IndexError).
Proof. intros nt; repeat split; reflexivity. Qed.

(** C8.  When [max_prompt_len + output_len] exceeds the decoder's
    [pos_enc.max_len], [generate] fails at its [assert] (the configuration
    error) with an empty trace: nothing allocated, no decoder invocation, no
    result.  Within the limit that error is never raised. *)
Theorem generate_position_limit :
  forall nt self prompts_tokens output_len max_prompt_len,
  py_max (map (@length Z) prompts_tokens) = ret max_prompt_len ->
  (pos_enc_max_len (decoder self) < max_prompt_len + output_len ->
   generate nt self prompts_tokens output_len = ([], inl AssertionError)) /\
  (max_prompt_len + output_len <= pos_enc_max_len (decoder self) ->
   ~ raises AssertionError (generate nt self prompts_tokens output_len)).
Proof.
  intros nt self prompts out mx Hmx; split.
  - intros Hgt; destruct (py_min_max_cons _ _ Hmx) as [mn Hmn].
    unfold generate; rewrite (generate_buffer_eq nt self prompts out mn mx Hmn Hmx).
    replace (Nat.leb (mx + out) (pos_enc_max_len (decoder self))) with false
      by (symmetry; apply Nat.leb_gt; exact Hgt).
    reflexivity.
  - intros Hle H.
    destruct (generate_raises_within _ _ _ _ _ _ Hmx Hle H) as [E | [E | E]];
      discriminate E.
Qed.

Lemma generate_position_limit_witness :
  generate sampler9 (lm_cfg 2) [[5; 6]]%Z 100 = ([], inl AssertionError) /\
  ~ raises AssertionError (generate sampler9 (lm_cfg 2) [[5; 6]]%Z 0).
Proof.
  destruct (generate_position_limit sampler9 (lm_cfg 2) [[5; 6]]%Z 100 2 eq_refl)
    as [H1 _].
  destruct (generate_position_limit sampler9 (lm_cfg 2) [[5; 6]]%Z 0 2 eq_refl)
    as [_ H2].
  split; [apply H1; simpl; lia | apply H2; simpl; lia].
Defined.

(** C9.  An empty prompt list is rejected by [min()] over the prompt
    lengths (the empty-batch error), before any allocation and without any
    decoder invocation. *)
Theorem generate_empty_batch :
  forall nt self output_len,
  generate nt self [] output_len = ([], inl ValueError).
Proof. reflexivity. Qed.

(** C10.  Past the attribute lookup ([self.config] present) and within the
    position limit, the SOS concatenation of a [(1, batch_size)] tensor with
    a [(batch_size, max_prompt_len)] one fails with a shape error exactly
    when the batch has more than one prompt. *)
Theorem generate_sos_concat_shape :
  forall nt self cfg prompts_tokens output_len max_prompt_len,
  config self = Some cfg ->
  py_max (map (@length Z) prompts_tokens) = ret max_prompt_len ->
  max_prompt_len + output_len <= pos_enc_max_len (decoder self) ->
  (raises ShapeError (generate nt self prompts_tokens output_len) <->
   2 <= length prompts_tokens).
Proof.
  intros nt self cfg prompts out mx Hc Hmx Hle.
  destruct (py_min_max_cons _ _ Hmx) as [mn Hmn].
  pose proof (py_max_length _ _ Hmx) as Hne.
  apply Nat.leb_le in Hle.
  split.
  - intros H; apply generate_raises in H.
    rewrite (generate_buffer_eq nt self prompts out mn mx Hmn Hmx), Hle in H.
    apply bind_raises in H as [H | [_k [_ H]]];
      [apply build_kv_caches_raises in H; discriminate H |].
    apply bind_raises in H as [H | [bufs [_ H]]].
    + destruct prompts as [| p [| q r]]; [congruence | | simpl; lia].
      unfold raises in H; simpl length in H; rewrite prepare_inputs_single in H.
      discriminate H.
    + apply bind_raises in H as [H | [_s [_ H]]];
        [apply index_select_rows_raises in H | apply decode_loop_raises in H];
        discriminate H.
  - intros H2; unfold raises, generate.
    rewrite (generate_buffer_eq nt self prompts out mn mx Hmn Hmx), Hle.
    destruct (build_kv_caches_some self cfg (length prompts) mn Hc) as [kv Hkv].
    rewrite (bind_ok _ _ _ _ Hkv); cbv beta.
    rewrite prepare_inputs_multi by lia.
    reflexivity.
Qed.

Lemma generate_sos_concat_shape_witness :
  raises ShapeError (generate sampler9 (lm_cfg 2) [[5; 6; 7]; [5; 6]]%Z 3) /\
  ~ raises ShapeError (generate sampler9 (lm_cfg 2) [[5; 6]]%Z 3).
Proof.
  split.
  - apply (generate_sos_concat_shape sampler9 (lm_cfg 2) (mkConfig 2)
             [[5; 6; 7]; [5; 6]]%Z 3 3); [reflexivity | reflexivity | simpl; lia | simpl; lia].
  - rewrite (generate_sos_concat_shape sampler9 (lm_cfg 2) (mkConfig 2)
               [[5; 6]]%Z 3 2); [simpl; lia | reflexivity | reflexivity | simpl; lia].
Defined.

(** * Further properties of the code *)

(** ** Helpers *)

Lemma length_triu_mask n : length (triu_mask n) = n.
Proof. unfold triu_mask; rewrite length_map, length_seq; reflexivity. Qed.

Lemma select_past_end {A} (mt : list A) j :
  length mt <= j -> index_select_rows mt [j] = ([], inl IndexError).
Proof.
  intros Hj; unfold index_select_rows; simpl mapM.
  unfold nth_or_index_error; rewrite (proj2 (nth_error_None mt j) Hj).
  reflexivity.
Qed.

Lemma index_select_rows_ok {A} (rows : list A) idx :
  (forall i, In i idx -> i < length rows) ->
  exists l, index_select_rows rows idx = ([], inr l).
Proof.
  unfold index_select_rows; induction idx as [| i idx IH]; intros Hin;
    [exists []; reflexivity |].
  destruct (nth_error rows i) as [x |] eqn:E;
    [| apply nth_error_None in E; specialize (Hin i (or_introl eq_refl)); lia].
  destruct IH as [l Hl]; [intros k Hk; apply Hin; right; exact Hk |].
  exists (x :: l).
  change (mapM (nth_or_index_error rows) (i :: idx)) with
    (bind (nth_or_index_error rows i)
          (fun y => bind (mapM (nth_or_index_error rows) idx) (fun ys => ret (y :: ys)))).
  unfold nth_or_index_error at 1; rewrite E, bind_ret, Hl; reflexivity.
Qed.

Lemma decode_loop_stuck nt fuel step mt pm inp buf j b :
  length mt <= j -> snd (decode_loop nt (S fuel) step mt pm inp buf j) <> inr b.
Proof.
  intros Hj H; simpl decode_loop in H.
  apply bind_inr in H as [_u [_ H]].
  apply bind_inr in H as [cm [_ H]].
  apply bind_inr in H as [ct [_ H]].
  apply bind_inr in H as [b' [_ H]].
  apply bind_inr in H as [_w [_ H]].
  apply bind_inr in H as [sel [Hsel _]].
  rewrite (select_past_end mt j Hj) in Hsel; discriminate Hsel.
Qed.

Lemma decode_loop_stuck_raises nt fuel step mt pm inp buf j :
  length mt <= j ->
  snd (decode_loop nt (S fuel) step mt pm inp buf j) = inl IndexError.
Proof.
  intros Hj; destruct (snd (decode_loop nt (S fuel) step mt pm inp buf j)) as [e | b] eqn:E.
  - f_equal; exact (decode_loop_raises nt e (S fuel) step mt pm inp buf j E).
  - exfalso; exact (decode_loop_stuck nt fuel step mt pm inp buf j b Hj E).
Qed.

(** A successful [generate_buffer]: one prompt, no output tokens, and the
    buffer is the SOS-prefixed prompt. *)
Lemma generate_buffer_success nt self prompts out buf :
  snd (generate_buffer nt self prompts out) = inr buf ->
  out = 0 /\ exists p, prompts = [p] /\ buf = [sos self :: p].
Proof.
  intros H.
  destruct prompts as [| p [| q ps]]; [discriminate H | |].
  - rewrite (generate_buffer_eq nt self [p] out (length p) (length p) eq_refl eq_refl) in H.
    destruct (Nat.leb _ _); [| discriminate H].
    apply bind_inr in H as [kv [_ H]].
    rewrite prepare_inputs_single, set_prefix_full in H.
    rewrite (bind_ok _ _ _ _ eq_refl) in H; simpl snd in H.
    destruct (index_select_rows_ok (triu_mask (length p)) (seq 0 (length p)))
      as [l Hl]; [intros i Hi; apply in_seq in Hi; rewrite length_triu_mask; lia |].
    rewrite (bind_ok _ _ _ _ Hl) in H; simpl snd in H.
    destruct (length p + out - length p) as [| f] eqn:Ef.
    + simpl in H; injection H as <-; split; [lia | exists p; split; reflexivity].
    + exfalso; refine (decode_loop_stuck nt f 0 _ _ _ _ _ buf _ H).
      rewrite length_triu_mask; lia.
  - set (ls := map (@length Z) (p :: q :: ps)).
    assert (Hmn : py_min ls = ret (fold_left Nat.min (map (@length Z) (q :: ps)) (length p)))
      by reflexivity.
    assert (Hmx : py_max ls = ret (fold_left Nat.max (map (@length Z) (q :: ps)) (length p)))
      by reflexivity.
    rewrite (generate_buffer_eq nt self _ out _ _ Hmn Hmx) in H.
    destruct (Nat.leb _ _); [| discriminate H].
    apply bind_inr in H as [kv [_ H]].
    rewrite prepare_inputs_multi in H by (simpl; lia).
    discriminate H.
Qed.

Lemma decoder_calls_app t1 t2 :
  decoder_calls (t1 ++ t2) = decoder_calls t1 + decoder_calls t2.
Proof. unfold decoder_calls; rewrite filter_app, length_app; reflexivity. Qed.

Lemma bind_calls {A B} (m : M A) (f : A -> M B) :
  decoder_calls (fst (bind m f)) =
  decoder_calls (fst m) + match snd m with inl _ => 0 | inr a => decoder_calls (fst (f a)) end.
Proof.
  rewrite bind_trace, decoder_calls_app; destruct (snd m); reflexivity.
Qed.

Lemma decoder_calls_nil_trace {A} (m : M A) : fst m = [] -> decoder_calls (fst m) = 0.
Proof. intros ->; reflexivity. Qed.

Lemma decode_loop_calls nt fuel step mt pm inp buf j :
  length mt <= j -> decoder_calls (fst (decode_loop nt fuel step mt pm inp buf j)) <= 1.
Proof.
  intros Hj; destruct fuel as [| fuel]; [cbv; lia |].
  simpl decode_loop; rewrite (select_past_end mt j Hj).
  rewrite bind_calls; simpl fst; simpl snd.
  rewrite bind_calls, (decoder_calls_nil_trace (index_col pm j))
    by exact (mapM_trace _ _ (fun row => nth_or_index_error_trace row j)).
  destruct (snd (index_col pm j)) as [e | cm]; [simpl; lia |].
  rewrite bind_calls, (decoder_calls_nil_trace (index_col buf j))
    by exact (mapM_trace _ _ (fun row => nth_or_index_error_trace row j)).
  destruct (snd (index_col buf j)) as [e | ct]; [simpl; lia |].
  cbv zeta.
  rewrite bind_calls, decoder_calls_nil_trace
    by (apply mapM_trace; intros rv; destruct (Nat.ltb j (length (fst rv))); reflexivity).
  destruct (snd (index_copy_col _ _ _)) as [e | b]; [simpl; lia |].
  cbv beta iota; rewrite !bind_calls; simpl; lia.
Qed.

Lemma filter_alloc_kv (l : list nat) :
  decoder_calls (map EvAllocKV l) = 0.
Proof. induction l as [| x r IH]; [reflexivity | exact IH]. Qed.

Lemma build_kv_caches_calls self bs mn :
  decoder_calls (fst (build_kv_caches self bs mn)) = 0.
Proof.
  unfold build_kv_caches, get_config; destruct (config self) as [cfg |];
    [rewrite bind_ret | reflexivity].
  destruct (kv_loop_ok_any (seq 0 (num_hidden_layers cfg))
              [bs; n_kv_head (decoder self); mn; head_dim (decoder self)] (KVList []))
    as [kv Hkv].
  rewrite Hkv; apply filter_alloc_kv.
Qed.

Lemma py_index_sound x l k : py_index x l = Some k -> ~ In x (firstn k l).
Proof.
  revert k; induction l as [| y r IH]; intros k H; [discriminate H |].
  simpl in H; destruct (Z.eqb y x) eqn:E.
  - injection H as <-; intros [].
  - destruct (py_index x r) as [k' |] eqn:E'; [| discriminate H].
    injection H as <-; simpl; intros [Hy | Hin].
    + subst; rewrite Z.eqb_refl in E; discriminate E.
    + exact (IH k' eq_refl Hin).
Qed.

Lemma py_index_complete x l : In x l -> exists k, py_index x l = Some k.
Proof.
  induction l as [| y r IH]; intros H; [destruct H |].
  simpl; destruct (Z.eqb y x) eqn:E; [eexists; reflexivity |].
  destruct H as [-> | H]; [rewrite Z.eqb_refl in E; discriminate E |].
  destruct (IH H) as [k ->]; eexists; reflexivity.
Qed.

Lemma nth_error_combine_inv {A B} (l1 : list A) (l2 : list B) i a b :
  nth_error (combine l1 l2) i = Some (a, b) ->
  nth_error l1 i = Some a /\ nth_error l2 i = Some b.
Proof.
  revert l2 i; induction l1 as [| x r IH]; intros l2 i H;
    [destruct i; discriminate H |].
  destruct l2 as [| y r2]; [destruct i; discriminate H |].
  destruct i; simpl in *; [injection H as -> ->; split; reflexivity | apply IH; exact H].
Qed.



(** ** Extra properties *)

Lemma bind_snd_err {A B} (m : M A) (f : A -> M B) e :
  snd m = inl e -> snd (bind m f) = inl e.
Proof. destruct m as [t [e' | a]]; simpl; intros H; [congruence | discriminate H]. Qed.

(** X1.  Whenever [generate] returns normally, it was given exactly one
    prompt and [output_len = 0], and it returns one empty sequence. *)
Theorem generate_returns_only_empty :
  forall nt self prompts_tokens output_len res,
  snd (generate nt self prompts_tokens output_len) = inr res ->
  output_len = 0 /\ exists p, prompts_tokens = [p] /\ res = [[]].
Proof.
  intros nt self prompts out res H; unfold generate in H.
  apply bind_inr in H as [buf [Hb H]].
  destruct (generate_buffer_success _ _ _ _ _ Hb) as [-> [p [-> ->]]].
  split; [reflexivity | exists p; split; [reflexivity |]].
  simpl in H; injection H as <-.
  unfold extract_results, py_slice; simpl.
  rewrite Nat.add_0_r, Nat.sub_diag; reflexivity.
Qed.

Lemma generate_returns_only_empty_witness :
  snd (generate sampler9 (lm_cfg 2) [[5; 6]]%Z 0) = inr [[]] /\
  0 = 0 /\ exists p, [[5; 6]]%Z = [p] /\ [@nil Z] = [[]].
Proof.
  assert (H : snd (generate sampler9 (lm_cfg 2) [[5; 6]]%Z 0) = inr [[]])
    by (vm_compute; reflexivity).
  split; [exact H |].
  exact (generate_returns_only_empty sampler9 (lm_cfg 2) [[5; 6]]%Z 0 [[]] H).
Defined.

(** X2.  With [self.config] present, a single prompt within the position
    limit and [output_len >= 1], [generate] raises [IndexError]: the first
    decode step reads row [max_prompt_len] of the causal mask, which has only
    [max_prompt_len] rows. *)
Theorem generate_single_prompt_index_error :
  forall nt self cfg p output_len,
  config self = Some cfg ->
  length p + output_len <= pos_enc_max_len (decoder self) ->
  1 <= output_len ->
  snd (generate nt self [p] output_len) = inl IndexError.
Proof.
  intros nt self cfg p out Hc Hle Hout.
  unfold generate.
  rewrite (generate_buffer_eq nt self [p] out (length p) (length p) eq_refl eq_refl).
  apply Nat.leb_le in Hle; rewrite Hle.
  destruct (build_kv_caches_some self cfg 1 (length p) Hc) as [kv Hkv].
  simpl length; rewrite (bind_ok _ _ _ _ Hkv).
  rewrite prepare_inputs_single, set_prefix_full.
  rewrite (bind_ok _ _ _ _ eq_refl).
  destruct (index_select_rows_ok (triu_mask (length p)) (seq 0 (length p)))
    as [l Hl]; [intros i Hi; apply in_seq in Hi; rewrite length_triu_mask; lia |].
  rewrite (bind_ok _ _ _ _ Hl).
  destruct (length p + out - length p) as [| f] eqn:Ef; [lia |].
  apply bind_snd_err; cbn [fst snd].
  apply decode_loop_stuck_raises; rewrite length_triu_mask; lia.
Qed.

Lemma generate_single_prompt_index_error_witness :
  snd (generate sampler9 (lm_cfg 2) [[5; 6]]%Z 3) = inl IndexError.
Proof.
  apply (generate_single_prompt_index_error sampler9 (lm_cfg 2) (mkConfig 2) [5; 6]%Z 3);
    [reflexivity | simpl; lia | lia].
Defined.

(** X3.  A call of [generate] invokes the decoder at most once, whatever
    the prompts and [output_len]. *)
Theorem generate_decoder_calls_at_most_one :
  forall nt self prompts_tokens output_len,
  decoder_calls (fst (generate nt self prompts_tokens output_len)) <= 1.
Proof.
  intros nt self prompts out; rewrite generate_trace.
  destruct prompts as [| p [| q ps]].
  - vm_compute; lia.
  - rewrite (generate_buffer_eq nt self [p] out (length p) (length p) eq_refl eq_refl).
    destruct (Nat.leb _ _); [| vm_compute; lia].
    rewrite bind_calls, build_kv_caches_calls.
    destruct (snd (build_kv_caches _ _ _)) as [e | kv]; [lia |].
    cbv beta iota; simpl length.
    rewrite prepare_inputs_single, set_prefix_full, bind_calls; cbn [fst snd].
    destruct (index_select_rows_ok (triu_mask (length p)) (seq 0 (length p)))
      as [l Hl]; [intros i Hi; apply in_seq in Hi; rewrite length_triu_mask; lia |].
    rewrite bind_calls, Hl; cbn [fst snd].
    pose proof (decode_loop_calls nt (length p + out - length p) 0 (triu_mask (length p))
      [map (fun t => negb (Z.eqb t IGNORE_ID)) (sos self :: p)] [sos self :: sos self :: p]
      [sos self :: p] (length p) ltac:(rewrite length_triu_mask; lia)) as Hd.
    unfold decoder_calls in *; simpl in *; lia.
  - set (ls := map (@length Z) (p :: q :: ps)).
    assert (Hmn : py_min ls = ret (fold_left Nat.min (map (@length Z) (q :: ps)) (length p)))
      by reflexivity.
    assert (Hmx : py_max ls = ret (fold_left Nat.max (map (@length Z) (q :: ps)) (length p)))
      by reflexivity.
    rewrite (generate_buffer_eq nt self _ out _ _ Hmn Hmx).
    destruct (Nat.leb _ _); [| vm_compute; lia].
    rewrite bind_calls, build_kv_caches_calls.
    destruct (snd (build_kv_caches _ _ _)) as [e | kv]; [lia |].
    cbv beta iota.
    rewrite bind_calls, prepare_inputs_multi by (simpl; lia).
    vm_compute; lia.
Qed.

(** X4.  Every sequence the output extractor returns is a prefix of the
    slice [tokens[len(p) : len(p) + output_len]] of its buffer row, has at
    most [output_len] tokens, and contains no EOS token. *)
Theorem extract_results_prefix_bound :
  forall eos output_len prompts_tokens token_ids i r,
  nth_error (extract_results eos output_len prompts_tokens token_ids) i = Some r ->
  exists p tokens,
    nth_error prompts_tokens i = Some p /\ nth_error token_ids i = Some tokens /\
    length r <= output_len /\ ~ In eos r /\
    exists rest, r ++ rest = py_slice tokens (length p) (length p + output_len).
Proof.
  intros eos out prompts buf i r H.
  unfold extract_results in H; rewrite nth_error_map in H.
  destruct (nth_error (combine prompts buf) i) as [[p tokens] |] eqn:E; [| discriminate H].
  simpl in H; injection H as <-.
  destruct (nth_error_combine_inv _ _ _ _ _ E) as [Hp Ht].
  exists p, tokens; split; [exact Hp | split; [exact Ht |]].
  set (c := py_slice tokens (length p) (length p + out)).
  assert (Hc : length c <= out).
  { unfold c, py_slice; rewrite length_firstn; lia. }
  unfold trim_eos; destruct (py_in eos c) eqn:Ein.
  - apply py_in_In in Ein.
    destruct (py_index_complete _ _ Ein) as [k Hk]; rewrite Hk.
    split; [rewrite length_firstn; lia |].
    split; [exact (py_index_sound _ _ _ Hk) |].
    exists (skipn k c); apply firstn_skipn.
  - split; [exact Hc | split].
    + intros Hin; apply py_in_In in Hin; congruence.
    + exists []; apply app_nil_r.
Qed.

Lemma extract_results_prefix_bound_witness :
  exists p tokens,
    nth_error [[5; 6]]%Z 0 = Some p /\ nth_error [[1; 5; 6; 4; 2; 7]]%Z 0 = Some tokens /\
    length [6; 4]%Z <= 3 /\ ~ In 2%Z [6; 4]%Z /\
    exists rest, [6; 4]%Z ++ rest = py_slice tokens (length p) (length p + 3).
Proof.
  apply (extract_results_prefix_bound 2 3 [[5; 6]]%Z [[1; 5; 6; 4; 2; 7]]%Z 0 [6; 4]%Z).
  vm_compute; reflexivity.
Defined.

(** X5.  Cutting a sequence at its first EOS token is idempotent: the cut
    sequence has no EOS left, so a second cut changes nothing. *)
Theorem trim_eos_idempotent :
  forall eos l, trim_eos eos (trim_eos eos l) = trim_eos eos l.
Proof.
  intros eos l.
  assert (Hno : ~ In eos (trim_eos eos l)).
  { unfold trim_eos; destruct (py_in eos l) eqn:Ein.
    - apply py_in_In in Ein; destruct (py_index_complete _ _ Ein) as [k Hk]; rewrite Hk.
      exact (py_index_sound _ _ _ Hk).
    - intros Hin; apply py_in_In in Hin; congruence. }
  unfold trim_eos at 1; destruct (py_in eos (trim_eos eos l)) eqn:E; [| reflexivity].
  apply py_in_In in E; contradiction.
Qed.
